(** * The session manager of tldraw

    A shallow embedding of [packages/tldraw/src/lib/state/session/session.ts]:
    the class [Session], which holds at most one running editing session and
    routes [begin] / [update] / [complete] / [cancel] to it.

    The class is a JavaScript object with one private slot ([current]) and one
    callback ([onSessionChange]).  Its methods read and write the slot, call
    into the session object and into the callback, and either return or throw.
    They are embedded as computations over a store that holds the manager
    object, the editor data the sessions and the callback work on, and a log
    of every call the manager makes to the outside. *)

From Stdlib Require Import String Bool Arith Lia List.
Import ListNotations.

Set Implicit Arguments.

(** ** JavaScript values the class deals with *)

(** What a session's [complete] hands back: a command object, or nothing
    ([void], which a caller sees as [undefined]). *)
Inductive Result (Command : Type) : Type :=
| undefined : Result Command
| value (c : Command) : Result Command.
Arguments undefined {Command}.

(** [throw Error(message)]. *)
Inductive Exception : Type :=
| Error (message : string).

(** The reference a chaining method returns with [return this]. *)
Inductive Reference : Type :=
| this_manager.

(** How a method call ends. *)
Inductive Completion (A : Type) : Type :=
| Normal (a : A)
| Throw (e : Exception).
Arguments Throw {A} e.

(** ** The session interface *)

(** Modelled from the spec: the interface [BaseSession] is imported from
    [./sessions/session-types], which is not part of the source tree.  The
    capability contract is [update(args) -> void],
    [complete(args) -> Result | void] and [cancel(args) -> void]; a session is
    opaque to the manager, and its capabilities work on editor data the
    manager never looks at ([World]).  Each capability takes its receiver
    first, as the manager always calls it through [.call(this.current, ...)].
    A capability, like the change callback, is taken to return to the manager:
    it neither throws nor calls back into the manager. *)
Class SessionTypes : Type := {
  World : Type;
  Command : Type;
  UpdateArgs : Type;
  CompleteArgs : Type;
  CancelArgs : Type;
  BaseSession : Type;
  session_update : BaseSession -> UpdateArgs -> World -> World;
  session_complete : BaseSession -> CompleteArgs -> World -> Result Command * World;
  session_cancel : BaseSession -> CancelArgs -> World -> World
}.

Section Manager.

Context `{ST : SessionTypes}.

(** One entry per call that leaves the manager. *)
Inductive Call : Type :=
| UpdateCall (s : BaseSession) (args : UpdateArgs)
| CompleteCall (s : BaseSession) (args : CompleteArgs)
| CancelCall (s : BaseSession) (args : CancelArgs)
| NotifyCall.

(** ** The class [Session] *)

(** [private current?: BaseSession] and [onSessionChange: () => void]. *)
Record Session : Type := {
  current : option BaseSession;
  onSessionChange : World -> World
}.

(** [constructor(onSessionChange)]: the slot starts out [undefined]. *)
Definition constructor (callback : World -> World) : Session :=
  {| current := None; onSessionChange := callback |}.

(** The manager object, the data outside it, and the log of outgoing calls. *)
Record Store : Type := {
  this : Session;
  world : World;
  calls : list Call
}.

(** ** Method bodies as store-passing computations

    A thrown exception leaves the store as it is at the [throw]: whatever was
    assigned before stays assigned. *)
Definition Js (A : Type) : Type := Store -> Completion A * Store.

Definition ret {A} (a : A) : Js A := fun st => (Normal a, st).

Definition throw {A} (e : Exception) : Js A := fun st => (Throw e, st).

Definition bind {A B} (m : Js A) (k : A -> Js B) : Js B :=
  fun st =>
    match m st with
    | (Normal a, st1) => k a st1
    | (Throw e, st1) => (Throw e, st1)
    end.

Notation "'let!' x ':=' m 'in' k" := (bind m (fun x => k))
  (at level 10, x name, m at level 100, k at level 200).
Notation "m ';;;' k" := (bind m (fun _ => k))
  (at level 100, k at level 200, right associativity).

(** [this.current] *)
Definition read_current : Js (option BaseSession) :=
  fun st => (Normal (current (this st)), st).

(** [this.current = v] *)
Definition write_current (v : option BaseSession) : Js unit :=
  fun st =>
    (Normal tt,
     {| this := {| current := v; onSessionChange := onSessionChange (this st) |};
        world := world st;
        calls := calls st |}).

(** [this.onSessionChange()] *)
Definition call_onSessionChange : Js unit :=
  fun st =>
    (Normal tt,
     {| this := this st;
        world := onSessionChange (this st) (world st);
        calls := calls st ++ [NotifyCall] |}).

(** [s.update.call(s, ...args)] *)
Definition call_update (s : BaseSession) (args : UpdateArgs) : Js unit :=
  fun st =>
    (Normal tt,
     {| this := this st;
        world := session_update s args (world st);
        calls := calls st ++ [UpdateCall s args] |}).

(** [s.complete.call(s, ...args)] *)
Definition call_complete (s : BaseSession) (args : CompleteArgs)
  : Js (Result Command) :=
  fun st =>
    (Normal (fst (session_complete s args (world st))),
     {| this := this st;
        world := snd (session_complete s args (world st));
        calls := calls st ++ [CompleteCall s args] |}).

(** [s.cancel.call(s, ...args)] *)
Definition call_cancel (s : BaseSession) (args : CancelArgs) : Js unit :=
  fun st =>
    (Normal tt,
     {| this := this st;
        world := session_cancel s args (world st);
        calls := calls st ++ [CancelCall s args] |}).

(** Truthiness of the slot in [if (this.current)]: a session is an object,
    hence truthy; [undefined] is falsy. *)
Definition truthy (v : option BaseSession) : bool :=
  match v with
  | Some _ => true
  | None => false
  end.

Definition begin_message : string :=
  "Cannot begin a session until the current session is complete. This error indicates a problem with the state chart."%string.

Definition update_message : string := "No current session."%string.

(** [begin(session)] *)
Definition begin (session : BaseSession) : Js Reference :=
  let! cur := read_current in
  if truthy cur then throw (Error begin_message)
  else
    write_current (Some session) ;;;
    call_onSessionChange ;;;
    ret this_manager.

(** [update(...args)] *)
Definition update (args : UpdateArgs) : Js Reference :=
  let! session := read_current in
  match session with
  | None => throw (Error update_message)
  | Some s =>
      call_update s args ;;;
      call_onSessionChange ;;;
      ret this_manager
  end.

(** [complete(...args)]: [this.current?.complete.call(...)] is [undefined]
    when the slot is. *)
Definition complete (args : CompleteArgs) : Js (Result Command) :=
  let! cur := read_current in
  let! finalCommand :=
    match cur with
    | Some s => call_complete s args
    | None => ret undefined
    end in
  write_current None ;;;
  ret finalCommand.

(** [cancel(...args)] *)
Definition cancel (args : CancelArgs) : Js Reference :=
  let! cur := read_current in
  match cur with
  | Some s => call_cancel s args
  | None => ret tt
  end ;;;
  write_current None ;;;
  call_onSessionChange ;;;
  ret this_manager.

(** [quietlyComplete()] *)
Definition quietlyComplete : Js Reference :=
  write_current None ;;;
  ret this_manager.

(** [get isInSession()]: [this.current !== undefined]. *)
Definition isInSession : Js bool :=
  let! cur := read_current in
  ret (match cur with
       | Some _ => true
       | None => false
       end).

(** ** Names the specification uses *)

Definition DoubleBeginError : Exception := Error begin_message.
Definition NoActiveSessionError : Exception := Error update_message.

(** The two states of the manager. *)
Inductive Phase : Type := Idle | Active.

Definition phase (st : Store) : Phase :=
  match current (this st) with
  | Some _ => Active
  | None => Idle
  end.

(** A manager fresh from its constructor, with nothing logged yet. *)
Definition fresh (callback : World -> World) (w : World) : Store :=
  {| this := constructor callback; world := w; calls := [] |}.

(** ** Counting the logged calls *)

Definition is_notify (c : Call) : bool :=
  match c with NotifyCall => true | _ => false end.

Definition is_update (c : Call) : bool :=
  match c with UpdateCall _ _ => true | _ => false end.

Definition is_complete (c : Call) : bool :=
  match c with CompleteCall _ _ => true | _ => false end.

Definition is_cancel (c : Call) : bool :=
  match c with CancelCall _ _ => true | _ => false end.

Definition count (p : Call -> bool) (log : list Call) : nat :=
  length (filter p log).

(** ** Sequences of method calls

    A caller that issues one method call after the other and carries on after
    a thrown error, as a test driver does.  [exec] records whether the call
    returned. *)
Inductive Op : Type :=
| Begin (session : BaseSession)
| Update (args : UpdateArgs)
| Complete (args : CompleteArgs)
| Cancel (args : CancelArgs)
| QuietlyComplete.

Definition returned {A} (c : Completion A) : bool :=
  match c with
  | Normal _ => true
  | Throw _ => false
  end.

Definition exec (op : Op) (st : Store) : bool * Store :=
  match op with
  | Begin s => (returned (fst (begin s st)), snd (begin s st))
  | Update a => (returned (fst (update a st)), snd (update a st))
  | Complete a => (returned (fst (complete a st)), snd (complete a st))
  | Cancel a => (returned (fst (cancel a st)), snd (cancel a st))
  | QuietlyComplete =>
      (returned (fst (quietlyComplete st)), snd (quietlyComplete st))
  end.

Fixpoint run (ops : list Op) (st : Store) : list (Op * bool) * Store :=
  match ops with
  | [] => ([], st)
  | op :: rest =>
      let r := exec op st in
      let rs := run rest (snd r) in
      ((op, fst r) :: fst rs, snd rs)
  end.

(** The operations that start or end a session: a [begin] that went through,
    and every [complete], [cancel] and [quietlyComplete].  An [update] and a
    refused [begin] are neither. *)
Definition terminal (e : Op * bool) : bool :=
  match e with
  | (Begin _, ok) => ok
  | (Update _, _) => false
  | (Complete _, _) => true
  | (Cancel _, _) => true
  | (QuietlyComplete, _) => true
  end.

Definition most_recent_terminal (h : list (Op * bool)) : option Op :=
  match rev (filter terminal h) with
  | [] => None
  | e :: _ => Some (fst e)
  end.

Definition is_begin (op : Op) : bool :=
  match op with
  | Begin _ => true
  | _ => false
  end.

Definition ends_session (op : Op) : bool :=
  match op with
  | Complete _ | Cancel _ | QuietlyComplete => true
  | Begin _ | Update _ => false
  end.

(** A [begin] that went through and no [complete], [cancel] or
    [quietlyComplete] after it. *)
Definition begun_not_ended (h : list (Op * bool)) : Prop :=
  exists pre s post,
    h = pre ++ (Begin s, true) :: post
    /\ Forall (fun e => ends_session (fst e) = false) post.

End Manager.

Arguments Call {ST}.
Arguments Session {ST}.
Arguments Store {ST}.
Arguments Js {ST} A.

Notation "'let!' x ':=' m 'in' k" := (bind m (fun x => k))
  (at level 10, x name, m at level 100, k at level 200).
Notation "m ';;;' k" := (bind m (fun _ => k))
  (at level 100, k at level 200, right associativity).

(** ** Reading a history of calls *)

Section Histories.

Context `{ST : SessionTypes}.

(** The session a logged call went to; the notifier goes to none. *)
Definition target (c : Call) : option BaseSession :=
  match c with
  | UpdateCall s _ => Some s
  | CompleteCall s _ => Some s
  | CancelCall s _ => Some s
  | NotifyCall => None
  end.

(** The session an operation puts into the slot. *)
Definition session_of (op : Op) : option BaseSession :=
  match op with
  | Begin s => Some s
  | _ => None
  end.

(** A [begin] that returned. *)
Definition begun (e : Op * bool) : bool :=
  match e with
  | (Begin _, ok) => ok
  | _ => false
  end.

(** The sessions handed over by the [begin]s that returned, oldest first. *)
Definition begun_sessions (h : list (Op * bool)) : list BaseSession :=
  flat_map (fun e => match e with
                     | (Begin s, true) => [s]
                     | _ => []
                     end) h.

(** The calls whose body reaches [this.onSessionChange()]: a [begin] or an
    [update] that returned, and every [cancel]. *)
Definition notifies (e : Op * bool) : bool :=
  match e with
  | (Begin _, ok) => ok
  | (Update _, ok) => ok
  | (Cancel _, _) => true
  | (Complete _, _) => false
  | (QuietlyComplete, _) => false
  end.

(** The operations of a history that returned, in order. *)
Definition returned_ops (h : list (Op * bool)) : list Op :=
  map fst (filter snd h).

(** How often a session's [complete] or [cancel] has been called. *)
Definition endings (log : list Call) : nat :=
  count is_complete log + count is_cancel log.

(** One if the slot holds a session, zero if not. *)
Definition occupied (st : Store) : nat :=
  if truthy (current (this st)) then 1 else 0.

End Histories.

(** ** A small instance to run the class on

    The editor data is a counter.  A session is known by a number; its
    [update] adds to the counter, its [complete] returns the counter as the
    command and clears it, its [cancel] clears it. *)
Definition counter_sessions : SessionTypes := {|
  World := nat;
  Command := nat;
  UpdateArgs := nat;
  CompleteArgs := nat;
  CancelArgs := nat;
  BaseSession := nat;
  session_update := fun _ a w => w + a;
  session_complete := fun _ a w => (value (w + a), 0);
  session_cancel := fun _ _ _ => 0
|}.

(** A manager of the instance whose callback bumps the counter by 100. *)
Definition idle_counter : @Store counter_sessions :=
  @fresh counter_sessions (fun w => w + 100) 1.

(** The same manager once session 7 has begun. *)
Definition busy_counter : @Store counter_sessions :=
  snd (@begin counter_sessions 7 idle_counter).

(** Call sequences, operations and a logged call of the instance. *)
Definition three_updates : list (@Op counter_sessions) :=
  map (@Update counter_sessions) [1; 2; 3].

Definition two_cycles : list (@Op counter_sessions) :=
  [@Begin counter_sessions 1; @Update counter_sessions 2;
   @Begin counter_sessions 3; @Complete counter_sessions 5;
   @Cancel counter_sessions 2; @Begin counter_sessions 4].

Definition refused_second_begin : list (@Op counter_sessions) :=
  [@Begin counter_sessions 1; @Begin counter_sessions 3;
   @Update counter_sessions 2].

Definition cancel_5 : @Op counter_sessions := @Cancel counter_sessions 5.

Definition complete_5 : @Op counter_sessions := @Complete counter_sessions 5.

Definition update_1_2 : @Call counter_sessions :=
  @UpdateCall counter_sessions 1 2.

(** Unfold a method body down to its reads, writes and outgoing calls. *)
Ltac run_method :=
  unfold begin, update, complete, cancel, quietlyComplete, isInSession,
    bind, read_current, write_current, call_onSessionChange, call_update,
    call_complete, call_cancel, ret, throw, phase, count; cbn.

Section Properties.

Context `{ST : SessionTypes}.

(** C1. While a session is active, [begin] with any session throws the
    double-begin error and leaves the whole store as it was: nothing is
    stored, the session that was active still is, and no call goes out.
    Conversely a [begin] that returns started from an empty slot. *)
Theorem begin_while_active_throws :
  (forall (st : Store) (active fresh_one : BaseSession),
      current (this st) = Some active ->
      begin fresh_one st = (Throw DoubleBeginError, st)
      /\ current (this (snd (begin fresh_one st))) = Some active)
  /\ (forall (st : Store) (s : BaseSession) (r : Reference) (st' : Store),
      begin s st = (Normal r, st') -> current (this st) = None).
Proof.
  split.
  - intros st active fresh_one Hact.
    unfold begin, bind, read_current. rewrite Hact. cbn. auto.
  - intros st s r st'.
    unfold begin, bind, read_current.
    destruct (current (this st)); cbn; [discriminate | reflexivity].
Qed.

(** ** Single calls *)

(** C4. With a session [s] active, [complete args] calls [s]'s [complete]
    once with [args], returns exactly what that call produced, leaves the
    manager idle, and does not call the notifier. *)
Theorem complete_active :
  forall (st : Store) (s : BaseSession) (args : CompleteArgs),
    current (this st) = Some s ->
    let produced := session_complete s args (world st) in
    complete args st =
      (Normal (fst produced),
       {| this := {| current := None;
                     onSessionChange := onSessionChange (this st) |};
          world := snd produced;
          calls := calls st ++ [CompleteCall s args] |})
    /\ phase (snd (complete args st)) = Idle
    /\ fst (complete args st) = Normal (fst produced)
    /\ count is_notify (calls (snd (complete args st)))
       = count is_notify (calls st).
Proof.
  intros st s args Hact produced. subst produced.
  run_method. rewrite Hact. cbn.
  repeat split. rewrite filter_app, length_app. cbn. lia.
Qed.

(** C5. With a session [s] active, [cancel args] calls [s]'s [cancel] once
    with [args], then the notifier once, leaves the manager idle and returns
    the manager. *)
Theorem cancel_active :
  forall (st : Store) (s : BaseSession) (args : CancelArgs),
    current (this st) = Some s ->
    cancel args st =
      (Normal this_manager,
       {| this := {| current := None;
                     onSessionChange := onSessionChange (this st) |};
          world := onSessionChange (this st)
                     (session_cancel s args (world st));
          calls := calls st ++ [CancelCall s args; NotifyCall] |})
    /\ phase (snd (cancel args st)) = Idle
    /\ count is_cancel (calls (snd (cancel args st)))
       = count is_cancel (calls st) + 1
    /\ count is_notify (calls (snd (cancel args st)))
       = count is_notify (calls st) + 1.
Proof.
  intros st s args Hact.
  run_method. rewrite Hact. cbn. rewrite <- app_assoc. cbn.
  repeat split; rewrite filter_app, length_app; reflexivity.
Qed.

(** C6. With no session active, [update] throws the no-active-session
    error.  With a session [s] active, it passes its arguments to [s]'s
    [update], then calls the notifier, and returns the manager; the slot
    keeps [s]. *)
Theorem update_idle_throws_active_forwards :
  (forall (st : Store) (args : UpdateArgs),
      fst (isInSession st) = Normal false ->
      update args st = (Throw NoActiveSessionError, st))
  /\ (forall (st : Store) (s : BaseSession) (args : UpdateArgs),
      current (this st) = Some s ->
      update args st =
        (Normal this_manager,
         {| this := this st;
            world := onSessionChange (this st)
                       (session_update s args (world st));
            calls := calls st ++ [UpdateCall s args; NotifyCall] |})).
Proof.
  split.
  - intros st args. run_method.
    destruct (current (this st)); cbn; [discriminate | reflexivity].
  - intros st s args Hact. run_method. rewrite Hact. cbn.
    now rewrite <- app_assoc.
Qed.

(** C7. With no session active, [complete] throws nothing, returns
    [undefined], and leaves the store, idle as it was, untouched. *)
Theorem complete_idle :
  forall (st : Store) (args : CompleteArgs),
    phase st = Idle ->
    complete args st = (Normal undefined, st)
    /\ phase (snd (complete args st)) = Idle.
Proof.
  intros [[cur notify] w log] args. run_method.
  destruct cur; [discriminate | auto].
Qed.

(** C8, as amended.  With no session active, [cancel] throws nothing and
    returns the manager; no session capability is called and the manager
    stays idle; the notifier is still called, once. *)
Theorem cancel_idle :
  forall (st : Store) (args : CancelArgs),
    phase st = Idle ->
    cancel args st =
      (Normal this_manager,
       {| this := this st;
          world := onSessionChange (this st) (world st);
          calls := calls st ++ [NotifyCall] |})
    /\ phase (snd (cancel args st)) = Idle
    /\ count is_update (calls (snd (cancel args st)))
       = count is_update (calls st)
    /\ count is_complete (calls (snd (cancel args st)))
       = count is_complete (calls st)
    /\ count is_cancel (calls (snd (cancel args st)))
       = count is_cancel (calls st)
    /\ count is_notify (calls (snd (cancel args st)))
       = count is_notify (calls st) + 1.
Proof.
  intros [[cur notify] w log] args. run_method.
  destruct cur; [discriminate | cbn].
  repeat split; rewrite filter_app, length_app; cbn; lia.
Qed.

(** C9. In any state, [quietlyComplete] empties the slot and does nothing
    else: the callback field, the data outside and the call log are as
    before, so neither [complete] nor [cancel] of the session nor the
    notifier was called. *)
Theorem quietlyComplete_only_clears :
  forall (st : Store),
    quietlyComplete st =
      (Normal this_manager,
       {| this := {| current := None;
                     onSessionChange := onSessionChange (this st) |};
          world := world st;
          calls := calls st |})
    /\ phase (snd (quietlyComplete st)) = Idle
    /\ calls (snd (quietlyComplete st)) = calls st.
Proof.
  intros st. run_method. auto.
Qed.

(** C10. A [begin] or an [update] that throws has changed nothing: the
    store after the call is the store before it, slot and call log included;
    and the error is the one of the failed precondition. *)
Theorem throwing_calls_change_nothing :
  (forall (st st' : Store) (s : BaseSession) (e : Exception),
      begin s st = (Throw e, st') ->
      st' = st /\ e = DoubleBeginError /\ phase st = Active)
  /\ (forall (st st' : Store) (args : UpdateArgs) (e : Exception),
      update args st = (Throw e, st') ->
      st' = st /\ e = NoActiveSessionError /\ phase st = Idle).
Proof.
  split.
  - intros st st' s e. run_method.
    destruct (current (this st)); cbn; intros H; inversion H; auto.
  - intros st st' args e. run_method.
    destruct (current (this st)); cbn; intros H; inversion H; auto.
Qed.

(** ** The scenario begin, update, update, complete *)

(** C3. On a fresh manager, [begin s; update a; update b; complete c] makes
    these calls, in this order: notifier, [s.update a], notifier,
    [s.update b], notifier, [s.complete c].  So the notifier has fired three
    times when [complete] starts and not again after, [s.complete] runs once,
    the manager ends idle, and the manager's [complete] returns what
    [s.complete c] returned on the data as the updates left it. *)
Theorem scenario_begin_update_update_complete :
  forall (notify : World -> World) (w0 : World) (s : BaseSession)
         (a b : UpdateArgs) (c : CompleteArgs),
    let w1 := notify w0 in
    let w2 := notify (session_update s a w1) in
    let w3 := notify (session_update s b w2) in
    let before :=
      snd ((begin s ;;; update a ;;; update b) (fresh notify w0)) in
    let whole :=
      (begin s ;;; update a ;;; update b ;;; complete c) (fresh notify w0) in
    calls before
      = [NotifyCall; UpdateCall s a; NotifyCall; UpdateCall s b; NotifyCall]
    /\ count is_notify (calls before) = 3
    /\ world before = w3
    /\ whole = complete c before
    /\ calls (snd whole) = calls before ++ [CompleteCall s c]
    /\ count is_notify (calls (snd whole)) = 3
    /\ count is_complete (calls (snd whole)) = 1
    /\ phase (snd whole) = Idle
    /\ fst (isInSession (snd whole)) = Normal false
    /\ fst whole = Normal (fst (session_complete s c w3)).
Proof.
  intros. subst before whole w3 w2 w1. cbv -[session_update session_complete].
  repeat split.
Qed.

(** ** Sequences of calls *)

Lemma isInSession_reads (st : Store) :
  isInSession st = (Normal (truthy (current (this st))), st).
Proof. run_method. now destruct (current (this st)). Qed.

(** What one call does to the slot, told from the record of the call. *)
Lemma exec_slot (op : Op) (st : Store) :
  truthy (current (this (snd (exec op st))))
  = if terminal (op, fst (exec op st)) then is_begin op
    else truthy (current (this st)).
Proof.
  destruct st as [[cur notify] w log]. destruct op, cur; reflexivity.
Qed.

Lemma most_recent_terminal_cons (e : Op * bool) (h : list (Op * bool)) :
  most_recent_terminal (e :: h)
  = match most_recent_terminal h with
    | Some op => Some op
    | None => if terminal e then Some (fst e) else None
    end.
Proof.
  unfold most_recent_terminal. cbn [filter].
  destruct (terminal e); [cbn [rev] |];
    destruct (rev (filter terminal h)); reflexivity.
Qed.

Lemma run_slot (ops : list Op) :
  forall st : Store,
    truthy (current (this (snd (run ops st))))
    = match most_recent_terminal (fst (run ops st)) with
      | Some op => is_begin op
      | None => truthy (current (this st))
      end.
Proof.
  induction ops as [| op rest IH]; intros st; [reflexivity |].
  cbn [run fst snd]. rewrite most_recent_terminal_cons, IH.
  destruct (most_recent_terminal (fst (run rest (snd (exec op st))))).
  - reflexivity.
  - rewrite exec_slot. now destruct (terminal (op, fst (exec op st))).
Qed.

(** No terminal record at all means no session-ending call at all. *)
Lemma most_recent_terminal_none (h : list (Op * bool)) :
  most_recent_terminal h = None ->
  Forall (fun e => ends_session (fst e) = false) h.
Proof.
  induction h as [| e h IH]; [constructor |].
  rewrite most_recent_terminal_cons.
  destruct (most_recent_terminal h); [discriminate |].
  destruct e as [[] ok]; cbn; try discriminate; intros; auto.
Qed.

(** Past the last session-ending call, the most recent terminal record, if
    there is one, is a [begin]. *)
Lemma most_recent_terminal_no_end (h : list (Op * bool)) :
  Forall (fun e => ends_session (fst e) = false) h ->
  forall op, most_recent_terminal h = Some op -> is_begin op = true.
Proof.
  induction 1 as [| e h He Hh IH]; intros op; [discriminate |].
  rewrite most_recent_terminal_cons.
  destruct (most_recent_terminal h) as [op' |].
  - intros [= <-]. now apply IH.
  - destruct e as [[] ok]; cbn in *; try discriminate;
      destruct ok; intros [= <-]; reflexivity.
Qed.

Lemma begun_not_ended_iff (h : list (Op * bool)) :
  begun_not_ended h <-> exists s, most_recent_terminal h = Some (Begin s).
Proof.
  induction h as [| e h IH].
  - split.
    + intros (pre & s & post & Heq & _). now destruct pre.
    + intros [s Hs]. discriminate.
  - rewrite most_recent_terminal_cons. split.
    + intros (pre & s & post & Heq & Hpost).
      destruct pre as [| e' pre]; cbn in Heq; injection Heq as -> ->.
      * pose proof (most_recent_terminal_no_end Hpost) as Hb.
        destruct (most_recent_terminal post) as [op |]; cbn; eauto.
        specialize (Hb op eq_refl). destruct op; try discriminate. eauto.
      * destruct IH as [IH _].
        destruct IH as [s' Hs']; [now exists pre, s, post |].
        rewrite Hs'. eauto.
    + destruct (most_recent_terminal h) as [op |] eqn:Hm.
      * intros [s [= ->]]. destruct IH as [_ IH].
        destruct IH as (pre & s' & post & -> & Hpost); eauto.
        now exists (e :: pre), s', post.
      * destruct e as [[] ok]; cbn; try (intros [s Hs]; discriminate).
        destruct ok; intros [s' Hs]; [| discriminate].
        exists [], session, h. split; [reflexivity |].
        now apply most_recent_terminal_none.
Qed.

(** C2. After any sequence of calls on a fresh manager, [isInSession] is
    true exactly when the most recent terminal operation of the sequence (a
    [begin] that went through, a [complete], a [cancel] or a
    [quietlyComplete]) is a [begin]; put otherwise, when some [begin] went
    through and no [complete], [cancel] or [quietlyComplete] came after it.
    Reading [isInSession] returns, changes nothing in the store and calls
    nothing. *)
Theorem isInSession_after_any_sequence :
  (forall (notify : World -> World) (w0 : World) (ops : list Op),
      let history := fst (run ops (fresh notify w0)) in
      let final := snd (run ops (fresh notify w0)) in
      (fst (isInSession final) = Normal true
       <-> exists s, most_recent_terminal history = Some (Begin s))
      /\ (fst (isInSession final) = Normal true
          <-> begun_not_ended history))
  /\ (forall st : Store,
      snd (isInSession st) = st
      /\ exists b : bool, fst (isInSession st) = Normal b).
Proof.
  split.
  - intros notify w0 ops history final.
    assert (Hmain : fst (isInSession final) = Normal true
                    <-> exists s, most_recent_terminal history = Some (Begin s)).
    { subst history final. rewrite isInSession_reads. cbn [fst].
      rewrite run_slot. cbn.
      destruct (most_recent_terminal (fst (run ops (fresh notify w0))))
        as [[] |]; cbn; split;
        try (intros [= ]); try (intros [s [= ]]); eauto. }
    split; [exact Hmain |].
    rewrite begun_not_ended_iff. exact Hmain.
  - intros st. rewrite isInSession_reads. cbn. eauto.
Qed.

End Properties.

(** ** Whole sequences of calls *)

Ltac count_log :=
  unfold endings, count; repeat rewrite filter_app; repeat rewrite length_app;
  cbn; lia.

Section Lifecycle.

Context `{ST : SessionTypes}.

Lemma run_cons (op : Op) (rest : list Op) (st : Store) :
  run (op :: rest) st
  = ((op, fst (exec op st)) :: fst (run rest (snd (exec op st))),
     snd (run rest (snd (exec op st)))).
Proof. reflexivity. Qed.

Lemma exec_callback (op : Op) (st : Store) :
  onSessionChange (this (snd (exec op st))) = onSessionChange (this st).
Proof.
  destruct st as [[cur notify] w log]. destruct op, cur; reflexivity.
Qed.

(** X1. No method ever assigns the callback field: after any sequence of
    calls, from any state, the manager still notifies through the callback
    its constructor was given. *)
Theorem callback_never_replaced :
  forall (ops : list Op) (st : Store),
    onSessionChange (this (snd (run ops st))) = onSessionChange (this st).
Proof.
  induction ops as [| op rest IH]; intros st; [reflexivity |].
  rewrite run_cons. cbn [snd]. rewrite IH. apply exec_callback.
Qed.

Lemma exec_notifications (op : Op) (st : Store) :
  count is_notify (calls (snd (exec op st)))
  = count is_notify (calls st)
    + (if notifies (op, fst (exec op st)) then 1 else 0).
Proof.
  destruct st as [[cur notify] w log]. destruct op, cur; cbn; count_log.
Qed.

(** X2. Over any sequence of calls the notifier fires once for each [begin]
    that returned, each [update] that returned and each [cancel], and for
    nothing else: never for a [complete], a [quietlyComplete] or a call that
    threw. *)
Theorem notifier_fires_once_per_notifying_call :
  forall (ops : list Op) (st : Store),
    count is_notify (calls (snd (run ops st)))
    = count is_notify (calls st)
      + length (filter notifies (fst (run ops st))).
Proof.
  induction ops as [| op rest IH]; intros st; [cbn; lia |].
  rewrite run_cons. cbn [fst snd filter].
  rewrite IH, exec_notifications.
  destruct (notifies (op, fst (exec op st))); cbn [length]; lia.
Qed.

Lemma exec_current (op : Op) (st : Store) :
  current (this (snd (exec op st)))
  = if terminal (op, fst (exec op st)) then session_of op
    else current (this st).
Proof.
  destruct st as [[cur notify] w log]. destruct op, cur; reflexivity.
Qed.

Lemma run_current (ops : list Op) :
  forall st : Store,
    current (this (snd (run ops st)))
    = match most_recent_terminal (fst (run ops st)) with
      | Some op => session_of op
      | None => current (this st)
      end.
Proof.
  induction ops as [| op rest IH]; intros st; [reflexivity |].
  rewrite run_cons. cbn [fst snd].
  rewrite most_recent_terminal_cons, IH.
  destruct (most_recent_terminal (fst (run rest (snd (exec op st))))).
  - reflexivity.
  - rewrite exec_current. now destruct (terminal (op, fst (exec op st))).
Qed.

(** X3. After any sequence of calls on a fresh manager, the slot holds the
    session handed to the most recent [begin] that returned, provided no
    [complete], [cancel] or [quietlyComplete] came after it, and is empty
    otherwise.  A refused [begin] never puts its session into the slot. *)
Theorem slot_holds_most_recently_begun :
  forall (notify : World -> World) (w0 : World) (ops : list Op)
         (s : BaseSession),
    current (this (snd (run ops (fresh notify w0)))) = Some s
    <-> most_recent_terminal (fst (run ops (fresh notify w0)))
        = Some (Begin s).
Proof.
  intros notify w0 ops s. rewrite run_current. cbn.
  destruct (most_recent_terminal (fst (run ops (fresh notify w0))))
    as [[] |]; cbn; split; intros H; try discriminate; congruence.
Qed.

(** X4. [isInSession] tells a caller which calls will go through: [update]
    returns exactly when it is true, [begin] returns exactly when it is
    false, and [complete], [cancel] and [quietlyComplete] return either
    way. *)
Theorem isInSession_predicts_outcome :
  forall (st : Store) (s : BaseSession) (u : UpdateArgs) (c : CompleteArgs)
         (x : CancelArgs),
    fst (isInSession st) = Normal (returned (fst (update u st)))
    /\ fst (isInSession st) = Normal (negb (returned (fst (begin s st))))
    /\ returned (fst (complete c st)) = true
    /\ returned (fst (cancel x st)) = true
    /\ returned (fst (quietlyComplete st)) = true.
Proof.
  intros [[cur notify] w log] s u c x. destruct cur; repeat split.
Qed.

Lemma exec_refused (op : Op) (st : Store) :
  fst (exec op st) = false -> snd (exec op st) = st.
Proof.
  destruct st as [[cur notify] w log].
  destruct op, cur; cbn; intros H; try discriminate; reflexivity.
Qed.

(** X5. Calls that threw leave no trace in a sequence: running only the
    calls that returned, in the same order, ends in the same store (slot,
    editor data and call log) and every one of them returns again. *)
Theorem refused_calls_can_be_dropped :
  forall (ops : list Op) (st : Store),
    let kept := returned_ops (fst (run ops st)) in
    snd (run kept st) = snd (run ops st)
    /\ fst (run kept st) = map (fun op => (op, true)) kept.
Proof.
  unfold returned_ops.
  induction ops as [| op rest IH]; intros st; [split; reflexivity |].
  rewrite run_cons. cbn [fst snd filter].
  destruct (fst (exec op st)) eqn:Hok.
  - cbn [map fst]. rewrite run_cons, Hok. cbn [fst snd map].
    destruct (IH (snd (exec op st))) as [IHst IHh].
    split; [exact IHst | now rewrite IHh].
  - rewrite (exec_refused op st Hok). apply IH.
Qed.

Lemma exec_update_active (a : UpdateArgs) (st : Store) (s : BaseSession) :
  current (this st) = Some s ->
  exec (Update a) st
  = (true,
     {| this := this st;
        world := onSessionChange (this st) (session_update s a (world st));
        calls := calls st ++ [UpdateCall s a; NotifyCall] |}).
Proof.
  destruct st as [[cur notify] w log]. cbn. intros ->. cbn.
  now rewrite <- app_assoc.
Qed.

(** X6. While a session is active, a run of [update]s all return, and the
    session receives every argument tuple, in the order given, each followed
    by one notification; the slot keeps the session throughout. *)
Theorem updates_forwarded_in_order :
  forall (args : list UpdateArgs) (st : Store) (s : BaseSession),
    current (this st) = Some s ->
    run (map Update args) st
    = (map (fun a => (Update a, true)) args,
       {| this := this st;
          world :=
            fold_left
              (fun w a => onSessionChange (this st) (session_update s a w))
              args (world st);
          calls :=
            calls st
            ++ flat_map (fun a => [UpdateCall s a; NotifyCall]) args |}).
Proof.
  induction args as [| a rest IH]; intros st s Hact.
  - destruct st as [t w log]. cbn. now rewrite app_nil_r.
  - cbn [map]. rewrite run_cons, (exec_update_active a st Hact).
    cbn [fst snd]. erewrite IH; [| exact Hact]. cbn [this world calls].
    cbn [map fold_left flat_map]. now rewrite <- app_assoc.
Qed.

(** X7. The manager can be used again at once: after a [complete], a
    [cancel] or a [quietlyComplete], whatever the state before, [begin]
    returns, stores the new session and notifies once. *)
Theorem begin_after_end_succeeds :
  forall (st : Store) (op : Op) (s : BaseSession),
    ends_session op = true ->
    let ended := snd (exec op st) in
    begin s ended
    = (Normal this_manager,
       {| this := {| current := Some s;
                     onSessionChange := onSessionChange (this st) |};
          world := onSessionChange (this st) (world ended);
          calls := calls ended ++ [NotifyCall] |}).
Proof.
  intros [[cur notify] w log] op s Hend.
  destruct op, cur; try discriminate; reflexivity.
Qed.

(** X8. A session that has ended receives nothing more: after a
    [complete], a [cancel] or a [quietlyComplete], a further [complete]
    returns [undefined] and changes nothing, a further [quietlyComplete]
    changes nothing, a further [cancel] only notifies, and an [update]
    throws. *)
Theorem ended_session_receives_nothing_more :
  forall (st : Store) (op : Op) (u : UpdateArgs) (c : CompleteArgs)
         (x : CancelArgs),
    ends_session op = true ->
    let ended := snd (exec op st) in
    complete c ended = (Normal undefined, ended)
    /\ quietlyComplete ended = (Normal this_manager, ended)
    /\ cancel x ended
       = (Normal this_manager,
          {| this := this ended;
             world := onSessionChange (this ended) (world ended);
             calls := calls ended ++ [NotifyCall] |})
    /\ update u ended = (Throw NoActiveSessionError, ended).
Proof.
  intros [[cur notify] w log] op u c x Hend.
  destruct op, cur; try discriminate; repeat split.
Qed.

Lemma exec_endings (op : Op) (st : Store) :
  endings (calls (snd (exec op st))) + occupied (snd (exec op st))
  <= endings (calls st) + occupied st
     + (if begun (op, fst (exec op st)) then 1 else 0)
  /\ (op <> QuietlyComplete ->
      endings (calls (snd (exec op st))) + occupied (snd (exec op st))
      = endings (calls st) + occupied st
        + (if begun (op, fst (exec op st)) then 1 else 0)).
Proof.
  destruct st as [[cur notify] w log].
  destruct op, cur; cbn; unfold occupied; cbn;
    (split; [| intros Hq; try (now contradiction Hq)]); count_log.
Qed.

(** X9. Sessions are ended no more often than they are begun.  Over any
    sequence of calls, the calls made to a session's [complete] or [cancel],
    plus one if a session is still active, never exceed the [begin]s that
    returned, plus one if a session was active at the start.  Without a
    [quietlyComplete] in the sequence the two are equal: every session that
    was begun is still active or was completed or cancelled exactly once. *)
Theorem endings_match_begins :
  forall (ops : list Op) (st : Store),
    let h := fst (run ops st) in
    let final := snd (run ops st) in
    endings (calls final) + occupied final
    <= endings (calls st) + occupied st + length (filter begun h)
    /\ (~ In QuietlyComplete ops ->
        endings (calls final) + occupied final
        = endings (calls st) + occupied st + length (filter begun h)).
Proof.
  induction ops as [| op rest IH]; intros st; [cbn; lia |].
  cbn zeta. rewrite run_cons. cbn [fst snd filter].
  destruct (IH (snd (exec op st))) as [IHle IHeq].
  destruct (exec_endings op st) as [Hle Heq].
  assert (Hlen : length (if begun (op, fst (exec op st))
                         then (op, fst (exec op st))
                              :: filter begun (fst (run rest (snd (exec op st))))
                         else filter begun (fst (run rest (snd (exec op st)))))
                 = (if begun (op, fst (exec op st)) then 1 else 0)
                   + length (filter begun (fst (run rest (snd (exec op st)))))).
  { now destruct (begun (op, fst (exec op st))). }
  rewrite Hlen. split; [cbn zeta in IHle; lia |].
  intros Hq.
  assert (Hop : op <> QuietlyComplete) by (intros ->; apply Hq; now left).
  assert (Hrest : ~ In QuietlyComplete rest) by (intros Hin; apply Hq; now right).
  specialize (Heq Hop). specialize (IHeq Hrest). lia.
Qed.

Lemma exec_calls (op : Op) (st : Store) (c : Call) :
  In c (calls (snd (exec op st))) ->
  In c (calls st) \/ target c = None \/ target c = current (this st).
Proof.
  destruct st as [[cur notify] w log].
  destruct op, cur; cbn; repeat rewrite in_app_iff; cbn;
    intuition (subst; cbn; auto).
Qed.

Lemma exec_current_origin (op : Op) (st : Store) (s : BaseSession) :
  current (this (snd (exec op st))) = Some s ->
  current (this st) = Some s \/ (op = Begin s /\ fst (exec op st) = true).
Proof.
  rewrite exec_current.
  destruct op; cbn [terminal session_of]; try (now left); try discriminate.
  destruct (fst (exec (Begin session) st)); [| now left].
  intros [= ->]. now right.
Qed.

(** X10. The manager calls no session but one it was handed: in the log
    after any sequence of calls, each call to a session's [update],
    [complete] or [cancel] either was in the log before, or went to the
    session active at the start, or went to a session passed to a [begin]
    that returned.  A session offered to a refused [begin] is never called. *)
Theorem session_calls_go_to_begun_sessions :
  forall (ops : list Op) (st : Store) (c : Call) (s : BaseSession),
    In c (calls (snd (run ops st))) ->
    target c = Some s ->
    In c (calls st)
    \/ current (this st) = Some s
    \/ In s (begun_sessions (fst (run ops st))).
Proof.
  induction ops as [| op rest IH]; intros st c s Hin Ht; [now left |].
  rewrite run_cons in *. cbn [fst snd] in *.
  unfold begun_sessions. cbn [flat_map]. fold (begun_sessions
    (fst (run rest (snd (exec op st))))).
  destruct (IH _ c s Hin Ht) as [Hold | [Hcur | Hbegun]].
  - destruct (exec_calls op st c Hold) as [H | [H | H]]; [now left | |].
    + congruence.
    + right; left. congruence.
  - destruct (exec_current_origin op st Hcur) as [H | [-> Hok]].
    + now (right; left).
    + right; right. rewrite Hok. now left.
  - right; right. apply in_or_app. now right.
Qed.

End Lifecycle.

(** ** The theorems at work on the counter instance *)

#[local] Existing Instance counter_sessions.

Lemma begin_while_active_throws_witness :
  (current (this busy_counter) = Some 7
   /\ begin 9 busy_counter = (Throw DoubleBeginError, busy_counter)
   /\ current (this (snd (begin 9 busy_counter))) = Some 7)
  /\ (begin 7 idle_counter = (Normal this_manager, busy_counter)
      /\ current (this idle_counter) = None).
Proof.
  split.
  - split; [reflexivity |].
    apply (proj1 (@begin_while_active_throws counter_sessions)
             busy_counter 7 9).
    reflexivity.
  - split; [reflexivity |].
    apply (proj2 (@begin_while_active_throws counter_sessions)
             idle_counter 7 this_manager busy_counter).
    reflexivity.
Defined.

Lemma complete_active_witness :
  current (this busy_counter) = Some 7
  /\ fst (complete 5 busy_counter) = Normal (value 106)
  /\ phase (snd (complete 5 busy_counter)) = Idle.
Proof.
  split; [reflexivity |].
  pose proof (@complete_active counter_sessions busy_counter 7 5 eq_refl)
    as (_ & Hidle & Hret & _).
  split; [exact Hret | exact Hidle].
Defined.

Lemma cancel_active_witness :
  current (this busy_counter) = Some 7
  /\ cancel 5 busy_counter =
       (Normal this_manager,
        {| this := constructor (fun w => w + 100);
           world := 100;
           calls := [NotifyCall; CancelCall 7 5; NotifyCall] |}).
Proof.
  split; [reflexivity |].
  exact (proj1 (@cancel_active counter_sessions busy_counter 7 5 eq_refl)).
Defined.

Lemma update_idle_throws_active_forwards_witness :
  (fst (isInSession idle_counter) = Normal false
   /\ update 5 idle_counter = (Throw NoActiveSessionError, idle_counter))
  /\ (current (this busy_counter) = Some 7
      /\ update 5 busy_counter =
           (Normal this_manager,
            {| this := this busy_counter;
               world := 206;
               calls := [NotifyCall; UpdateCall 7 5; NotifyCall] |})).
Proof.
  split.
  - split; [reflexivity |].
    apply (proj1 (@update_idle_throws_active_forwards counter_sessions)
             idle_counter 5).
    reflexivity.
  - split; [reflexivity |].
    apply (proj2 (@update_idle_throws_active_forwards counter_sessions)
             busy_counter 7 5).
    reflexivity.
Defined.

Lemma complete_idle_witness :
  phase idle_counter = Idle
  /\ complete 5 idle_counter = (Normal undefined, idle_counter).
Proof.
  split; [reflexivity |].
  exact (proj1 (@complete_idle counter_sessions idle_counter 5 eq_refl)).
Defined.

Lemma cancel_idle_witness :
  phase idle_counter = Idle
  /\ cancel 5 idle_counter =
       (Normal this_manager,
        {| this := this idle_counter; world := 101; calls := [NotifyCall] |}).
Proof.
  split; [reflexivity |].
  exact (proj1 (@cancel_idle counter_sessions idle_counter 5 eq_refl)).
Defined.

Lemma throwing_calls_change_nothing_witness :
  (begin 9 busy_counter = (Throw DoubleBeginError, busy_counter)
   /\ busy_counter = busy_counter /\ phase busy_counter = Active)
  /\ (update 5 idle_counter = (Throw NoActiveSessionError, idle_counter)
      /\ idle_counter = idle_counter /\ phase idle_counter = Idle).
Proof.
  split.
  - split; [reflexivity |].
    destruct (proj1 (@throwing_calls_change_nothing counter_sessions)
                busy_counter busy_counter 9 DoubleBeginError eq_refl)
      as (Hst & _ & Hph).
    split; [exact Hst | exact Hph].
  - split; [reflexivity |].
    destruct (proj2 (@throwing_calls_change_nothing counter_sessions)
                idle_counter idle_counter 5 NoActiveSessionError eq_refl)
      as (Hst & _ & Hph).
    split; [exact Hst | exact Hph].
Defined.

(** C8 as first stated does not hold: on an idle manager [cancel] is not a
    no-op.  It returns the manager and throws nothing, but it calls the
    notifier, which here moves the counter from 1 to 101. *)
Lemma cancel_idle_is_not_a_noop :
  phase idle_counter = Idle
  /\ calls idle_counter = []
  /\ calls (snd (cancel 5 idle_counter)) = [NotifyCall]
  /\ world idle_counter = 1
  /\ world (snd (cancel 5 idle_counter)) = 101
  /\ ~ (forall (st : @Store counter_sessions) (args : nat),
          phase st = Idle -> cancel args st = (Normal this_manager, st)).
Proof.
  repeat split.
  intros Hnoop. specialize (Hnoop idle_counter 5 eq_refl).
  discriminate Hnoop.
Qed.

(** ** Sequences on the counter instance *)

Lemma updates_forwarded_in_order_witness :
  current (this busy_counter) = Some 7
  /\ run three_updates busy_counter
     = ([(Update 1, true); (Update 2, true); (Update 3, true)],
        {| this := this busy_counter;
           world := 407;
           calls := [NotifyCall; UpdateCall 7 1; NotifyCall; UpdateCall 7 2;
                     NotifyCall; UpdateCall 7 3; NotifyCall] |}).
Proof.
  split; [reflexivity |].
  exact (@updates_forwarded_in_order counter_sessions [1; 2; 3]
           busy_counter 7 eq_refl).
Defined.

Lemma begin_after_end_succeeds_witness :
  ends_session cancel_5 = true
  /\ begin 8 (snd (exec cancel_5 busy_counter))
     = (Normal this_manager,
        {| this := {| current := Some 8;
                      onSessionChange := onSessionChange (this busy_counter) |};
           world := 200;
           calls := [NotifyCall; CancelCall 7 5; NotifyCall; NotifyCall] |}).
Proof.
  split; [reflexivity |].
  exact (@begin_after_end_succeeds counter_sessions busy_counter cancel_5 8
           eq_refl).
Defined.

Lemma ended_session_receives_nothing_more_witness :
  ends_session complete_5 = true
  /\ complete 6 (snd (exec complete_5 busy_counter))
     = (Normal undefined, snd (exec complete_5 busy_counter))
  /\ update 6 (snd (exec complete_5 busy_counter))
     = (Throw NoActiveSessionError, snd (exec complete_5 busy_counter)).
Proof.
  split; [reflexivity |].
  destruct (@ended_session_receives_nothing_more counter_sessions
              busy_counter complete_5 6 6 6 eq_refl)
    as (Hcomplete & _ & _ & Hupdate).
  split; [exact Hcomplete | exact Hupdate].
Defined.

Lemma endings_match_begins_witness :
  ~ In QuietlyComplete two_cycles
  /\ endings (calls (snd (run two_cycles idle_counter)))
     + occupied (snd (run two_cycles idle_counter))
     = endings (calls idle_counter) + occupied idle_counter
       + length (filter begun (fst (run two_cycles idle_counter))).
Proof.
  assert (Hq : ~ In QuietlyComplete two_cycles).
  { cbn. intros H. repeat (destruct H as [H | H]; [discriminate H |]).
    exact H. }
  split; [exact Hq |].
  exact (proj2 (@endings_match_begins counter_sessions two_cycles
                  idle_counter) Hq).
Defined.

Lemma session_calls_go_to_begun_sessions_witness :
  In update_1_2 (calls (snd (run refused_second_begin idle_counter)))
  /\ target update_1_2 = Some 1
  /\ (In update_1_2 (calls idle_counter)
      \/ current (this idle_counter) = Some 1
      \/ In 1 (begun_sessions (fst (run refused_second_begin idle_counter)))).
Proof.
  assert (Hin : In update_1_2
                  (calls (snd (run refused_second_begin idle_counter)))).
  { cbn. right. left. reflexivity. }
  split; [exact Hin |]. split; [reflexivity |].
  exact (@session_calls_go_to_begun_sessions counter_sessions
           refused_second_begin idle_counter update_1_2 1 Hin eq_refl).
Defined.
